(** * sindri-js: the `init` command of the command line client

    A shallow embedding of `initCommand` (the interactive project
    initialiser) and of the two input validators it passes to its text
    prompts, with the properties of the specification proved about them.

    Layout:
    - [Js]      the fragment of JavaScript strings and regular expressions
                the command uses (character classes, `test`, `replace`,
                `toUpperCase`);
    - [Validators]  the `validate` callbacks and the default values of
                the two text prompts;
    - [Cli]     the collaborators (file system, prompts, logger, template
                rendering, child processes) as an interface, the monad the
                action runs in, and `initCommand` itself;
    - [Scripted] a small world with a scripted user, to run the command;
    - facts about the regular expressions, the traces and the objects of
      the command, then the theorems on the validators and on the runs
      of the command, and the theorems applied in the scripted world. *)

From Stdlib Require Import Ascii String ZArith Lia.
From stdpp Require Import gmap strings list.

(** ** JavaScript strings and regular expressions *)

Module Js.

(** A string is a sequence of characters, here 8-bit ones; the patterns of
    the command only name ASCII characters, so every other character falls
    outside each bracket expression and inside each negated one. *)

(** One member of a bracket expression: a single character or a range. *)
Inductive ClassItem :=
| Chr (c : ascii)
| Rng (lo hi : ascii).

(** `[...]` and `[^...]`. *)
Record CharClass := { negated : bool; items : list ClassItem }.

Definition item_matches (i : ClassItem) (c : ascii) : bool :=
  match i with
  | Chr x => Ascii.eqb x c
  | Rng lo hi =>
      (nat_of_ascii lo <=? nat_of_ascii c)%nat && (nat_of_ascii c <=? nat_of_ascii hi)%nat
  end.

Definition class_matches (cc : CharClass) (c : ascii) : bool :=
  xorb (negated cc) (existsb (fun i => item_matches i c) (items cc)).

(** Quantifier of an atom: none, `*` or `+` (all greedy). *)
Inductive Quant := One | Star | Plus.

(** The regular expressions of the command are sequences of quantified
    character classes, possibly anchored with `^` and `$`, possibly with
    the `g` flag. None has the `m` flag, so `^` and `$` only match at the
    two ends of the input. *)
Record RegExp := {
  anchor_start : bool;
  atoms : list (CharClass * Quant);
  anchor_end : bool;
  global : bool
}.

(** Greedy iteration of a class, then the rest of the pattern [k];
    backtracks one character at a time when [k] fails. *)
Fixpoint match_star (cc : CharClass) (k : string -> option string) (s : string)
  : option string :=
  match s with
  | String c s' =>
      if class_matches cc c then
        match match_star cc k s' with
        | Some rest => Some rest
        | None => k s
        end
      else k s
  | EmptyString => k s
  end.

(** Matches the atoms at the beginning of [s]; the result is the part of
    [s] that follows the match. *)
Fixpoint match_here (ats : list (CharClass * Quant)) (at_end : bool) (s : string)
  : option string :=
  match ats with
  | [] =>
      if at_end then
        match s with EmptyString => Some EmptyString | String _ _ => None end
      else Some s
  | (cc, One) :: ats' =>
      match s with
      | String c s' => if class_matches cc c then match_here ats' at_end s' else None
      | EmptyString => None
      end
  | (cc, Star) :: ats' => match_star cc (match_here ats' at_end) s
  | (cc, Plus) :: ats' =>
      match s with
      | String c s' =>
          if class_matches cc c then match_star cc (match_here ats' at_end) s' else None
      | EmptyString => None
      end
  end.

Definition exec_here (re : RegExp) (s : string) : option string :=
  match_here (atoms re) (anchor_end re) s.

(** Leftmost match of an unanchored pattern. *)
Fixpoint search (re : RegExp) (s : string) : bool :=
  match exec_here re s with
  | Some _ => true
  | None =>
      match s with
      | EmptyString => false
      | String _ s' => search re s'
      end
  end.

(** `re.test(s)` for a pattern without the `g` flag. *)
Definition test (re : RegExp) (s : string) : bool :=
  if anchor_start re then
    match exec_here re s with Some _ => true | None => false end
  else search re s.

(** `s.replace(re, rep)` where `re` has no `g` flag and [rep] has no `$`:
    the leftmost match is replaced. *)
Fixpoint replace_first (re : RegExp) (rep : string) (s : string) : string :=
  match exec_here re s with
  | Some rest => rep +:+ rest
  | None =>
      match s with
      | EmptyString => EmptyString
      | String c s' => String c (replace_first re rep s')
      end
  end.

(** `s.replace(re, rep)` where `re` has the `g` flag: every match, from
    left to right, without overlap. [skip] counts the characters of the
    current match still to be dropped; after an empty match the scan moves
    on by one character, which is kept. *)
Fixpoint replace_all (re : RegExp) (rep : string) (skip : nat) (s : string) : string :=
  match skip with
  | S n =>
      match s with
      | EmptyString => EmptyString
      | String _ s' => replace_all re rep n s'
      end
  | O =>
      match exec_here re s with
      | Some rest =>
          rep +:+
          match s with
          | EmptyString => EmptyString
          | String c s' =>
              match (String.length s - String.length rest)%nat with
              | O => String c (replace_all re rep 0 s')
              | S n => replace_all re rep n s'
              end
          end
      | None =>
          match s with
          | EmptyString => EmptyString
          | String c s' => String c (replace_all re rep 0 s')
          end
      end
  end.

(** `s.replace(re, rep)`. With `^` only the beginning of the input can
    match, with or without `g`. *)
Definition replace (re : RegExp) (rep : string) (s : string) : string :=
  if anchor_start re then
    match exec_here re s with
    | Some rest => rep +:+ rest
    | None => s
    end
  else if global re then replace_all re rep 0 s
  else replace_first re rep s.

(** `s.replace(pat, rep)` with a string pattern: the first occurrence. *)
Fixpoint replace_string (pat rep : string) (s : string) : string :=
  if String.prefix pat s then
    rep +:+ String.substring (String.length pat) (String.length s - String.length pat) s
  else
    match s with
    | EmptyString => EmptyString
    | String c s' => String c (replace_string pat rep s')
    end.

(** `toUpperCase`, exact on ASCII strings: the lowercase letters are the
    only ASCII characters it changes. *)
Definition upper (c : ascii) : ascii :=
  let n := nat_of_ascii c in
  if (97 <=? n)%nat && (n <=? 122)%nat then ascii_of_nat (n - 32) else c.

Fixpoint toUpperCase (s : string) : string :=
  match s with
  | EmptyString => EmptyString
  | String c s' => String (upper c) (toUpperCase s')
  end.

End Js.

(** ** The validators and default values of the text prompts *)

Module Validators.
Import Js.

(** What a `validate` callback returns: `boolean | string`. *)
Inductive ValidateResult :=
| VBool (b : bool)
| VString (reason : string).

(** The members of `[-a-zA-Z0-9_]`. *)
Definition name_items : list ClassItem :=
  [Chr "-"; Rng "a" "z"; Rng "A" "Z"; Rng "0" "9"; Chr "_"].

(** `/[^-a-zA-Z0-9_]/g` *)
Definition re_not_name_char : RegExp :=
  {| anchor_start := false;
     atoms := [({| negated := true; items := name_items |}, One)];
     anchor_end := false;
     global := true |}.

(** `/^[-a-zA-Z0-9_]+$/` *)
Definition re_name : RegExp :=
  {| anchor_start := true;
     atoms := [({| negated := false; items := name_items |}, Plus)];
     anchor_end := true;
     global := false |}.

(** `/[^a-zA-Z0-9]/g` *)
Definition re_not_alnum : RegExp :=
  {| anchor_start := false;
     atoms := [({| negated := true;
                   items := [Rng "a" "z"; Rng "A" "Z"; Rng "0" "9"] |}, One)];
     anchor_end := false;
     global := true |}.

(** `/^[^a-z]*/` *)
Definition re_leading_not_lower : RegExp :=
  {| anchor_start := true;
     atoms := [({| negated := true; items := [Rng "a" "z"] |}, Star)];
     anchor_end := false;
     global := false |}.

(** `/^[a-z][a-z0-9]*$/` *)
Definition re_package : RegExp :=
  {| anchor_start := true;
     atoms := [({| negated := false; items := [Rng "a" "z"] |}, One);
               ({| negated := false; items := [Rng "a" "z"; Rng "0" "9"] |}, Star)];
     anchor_end := true;
     global := false |}.

(** The default of the "Circuit Name:" prompt:
    `directoryName.replace(/[^-a-zA-Z0-9_]/g, "-")`. *)
Definition defaultCircuitName (directoryName : string) : string :=
  replace re_not_name_char "-" directoryName.

(** The `validate` callback of the "Circuit Name:" prompt. *)
Definition validateCircuitName (input : string) : ValidateResult :=
  if (String.length input =? 0)%nat then
    VString "You must specify a circuit name."
  else if negb (test re_name input) then
    VString "Only alphanumeric characters, hyphens, and underscores are allowed."
  else VBool true.

(** The default of the "Go Package Name:" prompt:
    `circuitName.replace(/[^a-zA-Z0-9]/g, EmptyString).replace(/^[^a-z]*/, EmptyString)`. *)
Definition defaultPackageName (circuitName : string) : string :=
  replace re_leading_not_lower EmptyString (replace re_not_alnum EmptyString circuitName).

(** The `validate` callback of the "Go Package Name:" prompt. *)
Definition validatePackageName (input : string) : ValidateResult :=
  if (String.length input =? 0)%nat then
    VString "You must specify a package name."
  else if negb (test re_package input) then
    VString ("Package names must begin with a lowercase letter and only be followed by " +:+
             "alphanumeric characters.")
  else VBool true.

(** *** The rules as the specification words them *)

Definition is_lower (c : ascii) : bool :=
  (97 <=? nat_of_ascii c)%nat && (nat_of_ascii c <=? 122)%nat.
Definition is_upper (c : ascii) : bool :=
  (65 <=? nat_of_ascii c)%nat && (nat_of_ascii c <=? 90)%nat.
Definition is_digit (c : ascii) : bool :=
  (48 <=? nat_of_ascii c)%nat && (nat_of_ascii c <=? 57)%nat.

(** "hyphens, underscores, alphanumerics only" *)
Definition name_char (c : ascii) : bool :=
  Ascii.eqb c "-" || Ascii.eqb c "_" || is_lower c || is_upper c || is_digit c.

Definition alnum (c : ascii) : bool := is_lower c || is_upper c || is_digit c.

(** "must start with a lowercase letter, followed only by lowercase
    letters/digits" *)
Definition package_ident (s : string) : Prop :=
  match s with
  | EmptyString => False
  | String c rest =>
      is_lower c = true /\
      Forall (fun x => is_lower x || is_digit x = true) (list_ascii_of_string rest)
  end.

(** "every non-matching character replaced by `-`" *)
Fixpoint dash_outside_class (s : string) : string :=
  match s with
  | EmptyString => EmptyString
  | String c s' => String (if name_char c then c else "-"%char) (dash_outside_class s')
  end.

(** "stripping all non-alphanumeric characters" *)
Fixpoint strip_non_alnum (s : string) : string :=
  match s with
  | EmptyString => EmptyString
  | String c s' => if alnum c then String c (strip_non_alnum s') else strip_non_alnum s'
  end.

(** "stripping any leading run of characters that are not lowercase
    letters" *)
Fixpoint strip_leading_non_lower (s : string) : string :=
  match s with
  | EmptyString => EmptyString
  | String c s' => if is_lower c then s else strip_leading_non_lower s'
  end.

End Validators.

(** ** The command and its collaborators *)

Module Cli.
Import Js Validators.

(** *** Data *)

(** Property values of a thrown error object. *)
#[warnings="-register-all"]
Inductive JsValue :=
| JNull
| JNumber (n : Z)
| JString (s : string)
| JBuffer (bytes : list Z)
| JArray (elements : list JsValue).

(** A JavaScript object with string keys: an error object carries
    [JsValue]s, the configuration context carries strings. *)
Abbreviation JsError := (gmap string JsValue).
Abbreviation Context := (gmap string string).

(** `Object.assign(target, source)`: the properties of [source] are
    written over those of [target]. *)
Definition Object_assign {V} (target source : gmap string V) : gmap string V :=
  source ∪ target.

(** The levels of `logger`. *)
Inductive Level := Debug | Info | Warn | Err | Fatal.

(** What is handed to the logger: a message or an object. *)
Inductive Payload :=
| Msg (s : string)
| Obj (o : JsError).

(** One call to a collaborator, with what it answered (for a text prompt:
    the message, the default and the answer). *)
Inductive Call :=
| ExistsSync (path : string) (answer : bool)
| MkdirSync (path : string) (recursive : bool)
| StatSync_isDirectory (path : string) (answer : bool)
| ReaddirSync (path : string) (answer : list string)
| RmSync (path : string)
| ExecSync (command : string) (cwd : option string) (thrown : option JsError)
| Confirm (message : string) (default : bool) (answer : bool)
| Input (message default : string) (answer : string)
| Select (message default : string) (choices : list (string * string)) (answer : string)
| ScaffoldDirectory (name directoryPath : string) (context : Context)
    (thrown : option JsError)
| Log (level : Level) (payload : Payload).

(** How the action ends: it returns, an exception escapes it, or
    `process.exit(code)` stops the process. *)
Inductive Result (A : Type) :=
| Returned (a : A)
| Thrown (e : JsError)
| Exited (code : Z).
Arguments Returned {A} a.
Arguments Thrown {A} e.
Arguments Exited {A} code.

(** The double quote of the template literals. *)
Definition dquote : string := String (ascii_of_nat 34) EmptyString.

(** *** The collaborators

    What `initCommand` imports: `path`, `fs`, `child_process`,
    `@inquirer/prompts` and `scaffoldDirectory` of `cli/utils`, over a
    world [W] they read and change. Reading the file system does not
    change the world; `execSync` and `scaffoldDirectory` either return or
    throw ([Some e]); the file system functions and the prompts are taken
    to return. The logger only shows in the trace of calls. *)
Record Node (W : Type) := {
  path_resolve : string -> string;
  path_basename : string -> string;
  path_join : string -> string -> string;
  existsSync : string -> W -> bool;
  statSync_isDirectory : string -> W -> bool;
  readdirSync : string -> W -> list string;
  mkdirSync : string -> bool -> W -> W;
  rmSync : string -> W -> W;
  execSync : string -> option string -> W -> option JsError * W;
  confirm : string -> bool -> W -> bool * W;
  input : string -> string -> (string -> ValidateResult) -> W -> string * W;
  select : string -> string -> list (string * string) -> W -> string * W;
  scaffoldDirectory : string -> string -> Context -> W -> option JsError * W
}.
Arguments path_resolve {W} _ _.
Arguments path_basename {W} _ _.
Arguments path_join {W} _ _ _.
Arguments existsSync {W} _ _ _.
Arguments statSync_isDirectory {W} _ _ _.
Arguments readdirSync {W} _ _ _.
Arguments mkdirSync {W} _ _ _ _.
Arguments rmSync {W} _ _ _.
Arguments execSync {W} _ _ _ _.
Arguments confirm {W} _ _ _ _.
Arguments input {W} _ _ _ _ _.
Arguments select {W} _ _ _ _ _.
Arguments scaffoldDirectory {W} _ _ _ _ _.

(** The state of a run: the world and the calls made so far, oldest
    first. *)
Record State (W : Type) := { world : W; calls : list Call }.
Arguments world {W} _.
Arguments calls {W} _.

Definition start {W} (w : W) : State W := {| world := w; calls := [] |}.

(** *** The monad of the action *)

Definition Action (W A : Type) : Type := State W -> Result A * State W.

Section Monad.
Context {W : Type}.

Definition ret {A} (a : A) : Action W A := fun s => (Returned a, s).

Definition bind {A B} (m : Action W A) (k : A -> Action W B) : Action W B :=
  fun s =>
    match m s with
    | (Returned a, s') => k a s'
    | (Thrown e, s') => (Thrown e, s')
    | (Exited code, s') => (Exited code, s')
    end.

(** `try { body } catch (error) { handler }` *)
Definition try_catch {A} (body : Action W A) (handler : JsError -> Action W A)
  : Action W A :=
  fun s =>
    match body s with
    | (Thrown e, s') => handler e s'
    | r => r
    end.

(** `process.exit(code)` *)
Definition process_exit {A} (code : Z) : Action W A := fun s => (Exited code, s).

(** A call that changes the world to [w'], recorded as [c]. *)
Definition called (c : Call) (w' : W) (s : State W) : State W :=
  {| world := w'; calls := calls s ++ [c] |}.

End Monad.

Declare Scope action_scope.
Delimit Scope action_scope with action.
Notation "x <- m ;; k" := (bind m (fun x => k))
  (at level 100, m at next level, right associativity) : action_scope.
Notation "m ;;; k" := (bind m (fun _ => k))
  (at level 100, right associativity) : action_scope.

Section Command.
Context {W : Type} (node : Node W).
Local Open Scope action_scope.

(** *** The collaborators as actions *)

Definition fs_existsSync (p : string) : Action W bool :=
  fun s => let r := existsSync node p (world s) in
           (Returned r, called (ExistsSync p r) (world s) s).

Definition fs_statSync_isDirectory (p : string) : Action W bool :=
  fun s => let r := statSync_isDirectory node p (world s) in
           (Returned r, called (StatSync_isDirectory p r) (world s) s).

Definition fs_readdirSync (p : string) : Action W (list string) :=
  fun s => let r := readdirSync node p (world s) in
           (Returned r, called (ReaddirSync p r) (world s) s).

Definition fs_mkdirSync (p : string) (recursive : bool) : Action W unit :=
  fun s => (Returned tt, called (MkdirSync p recursive) (mkdirSync node p recursive (world s)) s).

Definition fs_rmSync (p : string) : Action W unit :=
  fun s => (Returned tt, called (RmSync p) (rmSync node p (world s)) s).

Definition child_execSync (command : string) (cwd : option string) : Action W unit :=
  fun s =>
    let '(thrown, w') := execSync node command cwd (world s) in
    (match thrown with Some e => Thrown e | None => Returned tt end,
     called (ExecSync command cwd thrown) w' s).

Definition prompt_confirm (message : string) (default : bool) : Action W bool :=
  fun s =>
    let '(r, w') := confirm node message default (world s) in
    (Returned r, called (Confirm message default r) w' s).

Definition prompt_input (message default : string) (validate : string -> ValidateResult)
  : Action W string :=
  fun s =>
    let '(r, w') := input node message default validate (world s) in
    (Returned r, called (Input message default r) w' s).

Definition prompt_select (message default : string) (choices : list (string * string))
  : Action W string :=
  fun s =>
    let '(r, w') := select node message default choices (world s) in
    (Returned r, called (Select message default choices r) w' s).

Definition utils_scaffoldDirectory (name directoryPath : string) (context : Context)
  : Action W unit :=
  fun s =>
    let '(thrown, w') := scaffoldDirectory node name directoryPath context (world s) in
    (match thrown with Some e => Thrown e | None => Returned tt end,
     called (ScaffoldDirectory name directoryPath context thrown) w' s).

Definition logger (level : Level) (payload : Payload) : Action W unit :=
  fun s => (Returned tt, called (Log level payload) (world s) s).

(** *** The choices of the three `select` prompts *)

Definition circuitType_choices : list (string * string) :=
  [("Circom", "circom"); ("Gnark", "gnark"); ("Halo2", "halo2"); ("Noir", "noir")].

Definition provingScheme_choices : list (string * string) :=
  [("Groth16", "groth16")].

Definition curveName_choices : list (string * string) :=
  [("BN254", "bn254"); ("BLS12-377", "bls12-377"); ("BLS12-381", "bls12-381");
   ("BLS24-315", "bls24-315"); ("BW6-633", "bw6-633"); ("BW6-761", "bw6-761")].

(** `curveName.toUpperCase().replace("-", "_")` *)
Definition to_gnarkCurveName (curveName : string) : string :=
  replace_string "-" "_" (toUpperCase curveName).

(** "upper-casing it and replacing its separator character" with an
    underscore, character by character. *)
Fixpoint upper_case_underscored (s : string) : string :=
  match s with
  | EmptyString => EmptyString
  | String c s' =>
      String (if Ascii.eqb c "-" then "_"%char else upper c) (upper_case_underscored s')
  end.

(** *** The clean-up of a caught `execSync` error *)

Definition noisyKeys : list string := ["output"; "stderr"; "stdout"].

(** `noisyKeys.forEach((key) => { if (key in execError) { execError[key] =
    "<truncated>"; } })` *)
Definition truncate_noisyKeys (execError : JsError) : JsError :=
  fold_left
    (fun e key =>
       match e !! key with
       | Some _ => <[key := JString "<truncated>"]> e
       | None => e
       end)
    noisyKeys execError.

(** *** The messages built from template literals *)

Definition msg_not_a_directory (directoryPath : string) : string :=
  "File " +:+ dquote +:+ directoryPath +:+ dquote +:+
  " exists and is not a directory, aborting.".

Definition msg_overwrite (directoryPath : string) : string :=
  ("The " +:+ dquote +:+ directoryPath +:+ dquote +:+
   " directory already exists and contains files. Continuing will ") +:+
  "overwrite your existing files. Are you *SURE* you would like to proceed?".

Definition msg_not_supported (circuitType : string) : string :=
  "Sorry, " +:+ circuitType +:+ " is not yet supported.".

Definition msg_proceeding (directoryPath : string) : string :=
  "Proceeding to generate scaffolded project in " +:+ dquote +:+ directoryPath +:+
  dquote +:+ ".".

Definition msg_confirm_git (directoryPath : string) : string :=
  "Would you like to initialize a git repository in " +:+ dquote +:+ directoryPath +:+
  dquote +:+ "?".

Definition msg_initializing_git (directoryPath : string) : string :=
  "Initializing git repository in " +:+ dquote +:+ directoryPath +:+ dquote +:+ ".".

(** *** The action of the `init` command *)

Definition initCommand (directory : string) : Action W unit :=
  (* Prepare the directory paths. *)
  let directoryPath := path_resolve node directory in
  let directoryName := path_basename node directoryPath in

  (* Ensure that the directory exists. *)
  (exists_ <- fs_existsSync directoryPath ;;
   if negb exists_ then
     fs_mkdirSync directoryPath true
   else
     isDirectory <- fs_statSync_isDirectory directoryPath ;;
     if negb isDirectory then
       logger Warn (Msg (msg_not_a_directory directoryPath)) ;;;
       process_exit 1
     else ret tt) ;;;

  (* Check that the directory is empty. *)
  existingFiles <- fs_readdirSync directoryPath ;;
  (if (0 <? length existingFiles)%nat then
     proceed <- prompt_confirm (msg_overwrite directoryPath) false ;;
     if negb proceed then
       logger Info (Msg "Aborting.") ;;;
       process_exit 1
     else ret tt
   else ret tt) ;;;

  (* Collect common fields. *)
  circuitName <- prompt_input "Circuit Name:"
                   (defaultCircuitName directoryName) validateCircuitName ;;
  circuitType <- prompt_select "Proving Framework:" "gnark" circuitType_choices ;;
  let context : Context :=
    {[ "circuitName" := circuitName; "circuitType" := circuitType ]} in

  (* Handle individual circuit types. *)
  context <-
    (if String.eqb circuitType "gnark" then
       packageName <- prompt_input "Go Package Name:"
                        (defaultPackageName circuitName) validatePackageName ;;
       provingScheme <- prompt_select "Proving Scheme:" "groth16" provingScheme_choices ;;
       curveName <- prompt_select "Curve Name:" "bn254" curveName_choices ;;
       let gnarkCurveName := to_gnarkCurveName curveName in
       ret (Object_assign context
              {[ "curveName" := curveName;
                 "gnarkCurveName" := gnarkCurveName;
                 "packageName" := packageName;
                 "provingScheme" := provingScheme ]})
     else
       logger Fatal (Msg (msg_not_supported circuitType)) ;;;
       process_exit 1) ;;

  (* Perform the scaffolding. *)
  logger Info (Msg (msg_proceeding directoryPath)) ;;;
  utils_scaffoldDirectory "common" directoryPath context ;;;
  utils_scaffoldDirectory circuitType directoryPath context ;;;
  let gitKeepFile := path_join node directoryPath ".gitkeep" in
  (gitKeepExists <- fs_existsSync gitKeepFile ;;
   if gitKeepExists then fs_rmSync gitKeepFile else ret tt) ;;;
  logger Info (Msg "Project scaffolding successful.") ;;;

  (* Optionally, initialize a git repository. *)
  gitInstalled <-
    try_catch
      (child_execSync "git --version" None ;;;
       ret true)
      (fun _ =>
         logger Debug (Msg "Git is not installed, skipping git initialization questions.") ;;;
         ret false) ;;
  gitAlreadyInitialized <- fs_existsSync (path_join node directoryPath ".git") ;;
  if gitInstalled && negb gitAlreadyInitialized then
    initializeGit <- prompt_confirm (msg_confirm_git directoryPath) true ;;
    if initializeGit then
      logger Info (Msg (msg_initializing_git directoryPath)) ;;;
      try_catch
        (child_execSync "git init ." (Some directoryPath) ;;;
         child_execSync "git add ." (Some directoryPath) ;;;
         child_execSync "git commit -m 'Initial commit.'" (Some directoryPath) ;;;
         logger Info (Msg "Successfully initialized git repository."))
        (fun error =>
           logger Err (Msg "Error occurred while initializing the git repository.") ;;;
           let execError := truncate_noisyKeys error in
           logger Err (Obj execError))
    else ret tt
  else ret tt.

(** The three things a run leaves behind. *)
Definition outcome (directory : string) (w : W) : Result unit :=
  fst (initCommand directory (start w)).
Definition trace (directory : string) (w : W) : list Call :=
  calls (snd (initCommand directory (start w))).
Definition final_world (directory : string) (w : W) : W :=
  world (snd (initCommand directory (start w))).

End Command.

(** *** Reading a trace *)

(** The calls to the template-rendering collaborator, in order. *)
Definition scaffold_calls (t : list Call) : list (string * string * Context) :=
  omap (fun c =>
          match c with
          | ScaffoldDirectory name dir ctx _ => Some (name, dir, ctx)
          | _ => None
          end) t.

(** The answers given at the choice prompt with this message. *)
Fixpoint select_answers (message : string) (t : list Call) : list string :=
  match t with
  | [] => []
  | Select m _ _ answer :: t' =>
      if String.eqb m message then answer :: select_answers message t'
      else select_answers message t'
  | _ :: t' => select_answers message t'
  end.

(** The defaults and answers of the text prompt with this message. *)
Fixpoint input_answers (message : string) (t : list Call) : list (string * string) :=
  match t with
  | [] => []
  | Input m default answer :: t' =>
      if String.eqb m message then (default, answer) :: input_answers message t'
      else input_answers message t'
  | _ :: t' => input_answers message t'
  end.

(** The commands that failed, with their working directory and the
    exception thrown. *)
Fixpoint exec_failures (t : list Call) : list (string * option string * JsError) :=
  match t with
  | [] => []
  | ExecSync command cwd (Some e) :: t' => (command, cwd, e) :: exec_failures t'
  | _ :: t' => exec_failures t'
  end.

(** The questions put to the user. *)
Definition is_question (c : Call) : bool :=
  match c with
  | Confirm _ _ _ | Input _ _ _ | Select _ _ _ _ => true
  | _ => false
  end.

(** The process exit status of a finished run; an escaped exception has
    none here. *)
Definition exit_status {A} (r : Result A) : option Z :=
  match r with
  | Returned _ => Some 0%Z
  | Exited code => Some code
  | Thrown _ => None
  end.

End Cli.

(** ** A scripted world

    A small world to run the command in: a file system as a map from paths
    to nodes, and a user who answers each question from a script, or with
    the default of the question when the script has no answer for it. *)

Module Scripted.
Import Cli.

Inductive FsNode :=
| File
| Directory (entries : list string).

Record Script := {
  answers : gmap string string;       (* by message: text and choice prompts *)
  confirmations : gmap string bool;   (* by message *)
  failing_commands : gmap string JsError;
  failing_templates : gmap string JsError
}.

(** The last segment of a path. *)
Fixpoint basename_from (segment : string) (p : string) : string :=
  match p with
  | EmptyString => segment
  | String c p' =>
      if Ascii.eqb c "/" then basename_from EmptyString p'
      else basename_from (segment +:+ String c EmptyString) p'
  end.

Definition thrown_by (failures : gmap string JsError) (key : string)
  (w : gmap string FsNode) : option JsError * gmap string FsNode :=
  (failures !! key, w).

Definition node (sc : Script) : Node (gmap string FsNode) :=
  {| path_resolve := fun d => "/work/" +:+ d;
     path_basename := basename_from EmptyString;
     path_join := fun a b => a +:+ "/" +:+ b;
     existsSync := fun p w => bool_decide (is_Some (w !! p));
     statSync_isDirectory := fun p w =>
       match w !! p with Some (Directory _) => true | _ => false end;
     readdirSync := fun p w =>
       match w !! p with Some (Directory entries) => entries | _ => [] end;
     mkdirSync := fun p _ w => <[p := Directory []]> w;
     rmSync := fun p w => delete p w;
     execSync := fun command _ w => thrown_by (failing_commands sc) command w;
     confirm := fun message dflt w => (default dflt (confirmations sc !! message), w);
     input := fun message dflt _ w => (default dflt (answers sc !! message), w);
     select := fun message dflt _ w => (default dflt (answers sc !! message), w);
     scaffoldDirectory := fun name _ _ w => thrown_by (failing_templates sc) name w |}.

(** The user accepts every default and nothing fails. *)
Definition all_defaults : Script :=
  {| answers := ∅; confirmations := ∅; failing_commands := ∅; failing_templates := ∅ |}.

(** The user answers one text or choice prompt and accepts the defaults
    of the others. *)
Definition answering (message answer : string) : Script :=
  {| answers := {[ message := answer ]};
     confirmations := ∅; failing_commands := ∅; failing_templates := ∅ |}.

(** One command fails with the given exception. *)
Definition failing (command : string) (e : JsError) : Script :=
  {| answers := ∅; confirmations := ∅;
     failing_commands := {[ command := e ]}; failing_templates := ∅ |}.

(** A failed `execSync`: exit status, captured streams and a message. *)
Definition git_failure : JsError :=
  {[ "status" := JNumber 128;
     "output" := JArray [JNull; JBuffer []; JBuffer [102; 97; 116; 97; 108]%Z];
     "stderr" := JBuffer [102; 97; 116; 97; 108]%Z;
     "message" := JString "Command failed: git commit -m 'Initial commit.'" ]}.

End Scripted.

(** ** More ways to read a trace *)

Module TraceReading.
Import Cli.

(** The messages of the questions put to the user, in order. *)
Fixpoint question_messages (t : list Call) : list string :=
  match t with
  | [] => []
  | Confirm message _ _ :: t' => message :: question_messages t'
  | Input message _ _ :: t' => message :: question_messages t'
  | Select message _ _ _ :: t' => message :: question_messages t'
  | _ :: t' => question_messages t'
  end.

(** The calls that write to the file system: `mkdirSync` and `rmSync`. *)
Definition is_fs_write (c : Call) : bool :=
  match c with
  | MkdirSync _ _ | RmSync _ => true
  | _ => false
  end.

(** The commands run, with their working directory, in order. *)
Fixpoint exec_commands (t : list Call) : list (string * option string) :=
  match t with
  | [] => []
  | ExecSync command cwd _ :: t' => (command, cwd) :: exec_commands t'
  | _ :: t' => exec_commands t'
  end.

(** The commands that returned. *)
Fixpoint exec_returns (t : list Call) : list (string * option string) :=
  match t with
  | [] => []
  | ExecSync command cwd None :: t' => (command, cwd) :: exec_returns t'
  | _ :: t' => exec_returns t'
  end.

(** The calls to the template-rendering collaborator with their outcome. *)
Fixpoint scaffold_results (t : list Call)
  : list (string * string * gmap string string * option (gmap string JsValue)) :=
  match t with
  | [] => []
  | ScaffoldDirectory name dir context thrown :: t' =>
      (name, dir, context, thrown) :: scaffold_results t'
  | _ :: t' => scaffold_results t'
  end.

End TraceReading.

(** ** The fragment at work *)

Example replace_string_first_occurrence :
  Js.replace_string "-" "_" "a-b-c" = "a_b-c".
Proof. reflexivity. Qed.

Example replace_string_empty_pattern :
  Js.replace_string EmptyString "_" "abc" = "_abc".
Proof. reflexivity. Qed.

Example replace_global_every_match :
  Validators.defaultCircuitName "my project.v2" = "my-project-v2".
Proof. reflexivity. Qed.

Example replace_anchored_greedy :
  Validators.defaultPackageName "12-My_circuit-3" = "ycircuit3".
Proof. reflexivity. Qed.

Example test_end_anchor_is_end_of_input :
  Js.test Validators.re_name ("abc" +:+ String (ascii_of_nat 10) EmptyString) = false.
Proof. reflexivity. Qed.

Example validateCircuitName_accepts :
  Validators.validateCircuitName "my-circuit_1" = Validators.VBool true.
Proof. reflexivity. Qed.

Example validatePackageName_accepts :
  Validators.validatePackageName "ycircuit3" = Validators.VBool true.
Proof. reflexivity. Qed.

Example validatePackageName_rejects_upper_case :
  Validators.validatePackageName "yCircuit3" <> Validators.VBool true.
Proof. discriminate. Qed.

(** ** Facts about the regular expressions of the command *)

Section RegExpFacts.
Import Js Validators.

Lemma name_class_spec c :
  class_matches {| negated := false; items := name_items |} c = name_char c.
Proof. destruct c as [[] [] [] [] [] [] [] []]; reflexivity. Qed.

Lemma not_name_class_spec c :
  class_matches {| negated := true; items := name_items |} c = negb (name_char c).
Proof. destruct c as [[] [] [] [] [] [] [] []]; reflexivity. Qed.

Lemma not_alnum_class_spec c :
  class_matches {| negated := true; items := [Rng "a" "z"; Rng "A" "Z"; Rng "0" "9"] |} c
  = negb (alnum c).
Proof. destruct c as [[] [] [] [] [] [] [] []]; reflexivity. Qed.

Lemma not_lower_class_spec c :
  class_matches {| negated := true; items := [Rng "a" "z"] |} c = negb (is_lower c).
Proof. destruct c as [[] [] [] [] [] [] [] []]; reflexivity. Qed.

Lemma lower_class_spec c :
  class_matches {| negated := false; items := [Rng "a" "z"] |} c = is_lower c.
Proof. destruct c as [[] [] [] [] [] [] [] []]; reflexivity. Qed.

Lemma lower_digit_class_spec c :
  class_matches {| negated := false; items := [Rng "a" "z"; Rng "0" "9"] |} c
  = is_lower c || is_digit c.
Proof. destruct c as [[] [] [] [] [] [] [] []]; reflexivity. Qed.

Lemma forallb_pointwise {A} (f g : A -> bool) (l : list A) :
  (forall a, f a = g a) -> forallb f l = forallb g l.
Proof. intros E. induction l as [|a l IH]; simpl; [reflexivity|]. now rewrite E, IH. Qed.

(** `[c]*$`: the greedy iteration followed by the end of input succeeds
    exactly on the strings made of members of the class. *)
Lemma match_star_to_end cc k s :
  k EmptyString = Some EmptyString ->
  (forall c t, k (String c t) = None) ->
  match_star cc k s
  = if forallb (class_matches cc) (list_ascii_of_string s) then Some EmptyString else None.
Proof.
  intros Hnil Hcons.
  induction s as [|c s IH]; simpl; [exact Hnil|].
  destruct (class_matches cc c); simpl; [|apply Hcons].
  rewrite IH. destruct (forallb _ _); [reflexivity|apply Hcons].
Qed.

(** `^[^a-z]*` with nothing after it never backtracks: it consumes the
    longest prefix without a lowercase letter. *)
Lemma match_star_leading k s :
  (forall t, k t = Some t) ->
  match_star {| negated := true; items := [Rng "a" "z"] |} k s
  = Some (strip_leading_non_lower s).
Proof.
  intros Hk.
  induction s as [|c s IH]; [apply Hk|].
  cbn [match_star strip_leading_non_lower].
  rewrite not_lower_class_spec. destruct (is_lower c); simpl; [apply Hk|].
  now rewrite IH.
Qed.

Lemma test_re_name s :
  test re_name s
  = negb (String.length s =? 0)%nat && forallb name_char (list_ascii_of_string s).
Proof.
  unfold test, exec_here; cbn [anchor_start anchor_end atoms re_name match_here].
  destruct s as [|c s]; [reflexivity|].
  rewrite name_class_spec. cbn [list_ascii_of_string forallb String.length Nat.eqb negb andb].
  destruct (name_char c); [|reflexivity].
  rewrite match_star_to_end by reflexivity.
  rewrite (forallb_pointwise _ _ _ name_class_spec).
  now destruct (forallb _ _).
Qed.

Lemma test_re_package s :
  test re_package s
  = match s with
    | EmptyString => false
    | String c rest =>
        is_lower c && forallb (fun x => is_lower x || is_digit x) (list_ascii_of_string rest)
    end.
Proof.
  unfold test, exec_here; cbn [anchor_start anchor_end atoms re_package match_here].
  destruct s as [|c s]; [reflexivity|].
  rewrite lower_class_spec.
  destruct (is_lower c); [|reflexivity].
  rewrite match_star_to_end by reflexivity.
  rewrite (forallb_pointwise _ _ _ lower_digit_class_spec).
  now destruct (forallb _ _).
Qed.

(** The two global patterns match one character at a time. *)
Lemma replace_not_name_char d : defaultCircuitName d = dash_outside_class d.
Proof.
  unfold defaultCircuitName, replace; cbn [anchor_start global re_not_name_char].
  induction d as [|c d IH]; [reflexivity|].
  cbn [replace_all exec_here atoms anchor_end re_not_name_char match_here
       dash_outside_class].
  rewrite not_name_class_spec.
  destruct (name_char c); cbn [negb].
  - now rewrite <- IH.
  - cbn [String.length]. rewrite Nat.sub_succ_l, Nat.sub_diag by lia.
    now rewrite <- IH.
Qed.

Lemma replace_not_alnum s : replace re_not_alnum EmptyString s = strip_non_alnum s.
Proof.
  unfold replace; cbn [anchor_start global re_not_alnum].
  induction s as [|c s IH]; [reflexivity|].
  cbn [replace_all exec_here atoms anchor_end re_not_alnum match_here strip_non_alnum].
  rewrite not_alnum_class_spec.
  destruct (alnum c); cbn [negb].
  - now rewrite <- IH.
  - cbn [String.length]. rewrite Nat.sub_succ_l, Nat.sub_diag by lia.
    now rewrite <- IH.
Qed.

Lemma replace_leading_not_lower s :
  replace re_leading_not_lower EmptyString s = strip_leading_non_lower s.
Proof.
  unfold replace, exec_here;
    cbn [anchor_start anchor_end atoms re_leading_not_lower match_here].
  now rewrite match_star_leading.
Qed.

Lemma defaultPackageName_spec s :
  defaultPackageName s = strip_leading_non_lower (strip_non_alnum s).
Proof.
  unfold defaultPackageName. now rewrite replace_not_alnum, replace_leading_not_lower.
Qed.

Lemma validateCircuitName_spec s :
  validateCircuitName s =
    if (String.length s =? 0)%nat then VString "You must specify a circuit name."
    else if forallb name_char (list_ascii_of_string s) then VBool true
    else VString "Only alphanumeric characters, hyphens, and underscores are allowed.".
Proof.
  unfold validateCircuitName. rewrite test_re_name.
  destruct (String.length s =? 0)%nat; [reflexivity|].
  now destruct (forallb _ _).
Qed.

Lemma validatePackageName_spec s :
  validatePackageName s =
    match s with
    | EmptyString => VString "You must specify a package name."
    | String c rest =>
        if is_lower c && forallb (fun x => is_lower x || is_digit x) (list_ascii_of_string rest)
        then VBool true
        else VString ("Package names must begin with a lowercase letter and only be followed by " +:+
                      "alphanumeric characters.")
    end.
Proof.
  unfold validatePackageName. rewrite test_re_package.
  destruct s as [|c rest]; [reflexivity|].
  cbn [String.length Nat.eqb]. now destruct (_ && _).
Qed.

Lemma package_ident_decide s :
  package_ident s <->
  match s with
  | EmptyString => False
  | String c rest =>
      is_lower c && forallb (fun x => is_lower x || is_digit x) (list_ascii_of_string rest) = true
  end.
Proof.
  destruct s as [|c rest]; [reflexivity|].
  cbn [package_ident]. rewrite andb_true_iff, forallb_forall, List.Forall_forall.
  reflexivity.
Qed.

(** What the two steps of the derivation leave. *)
Lemma strip_non_alnum_all s :
  forallb alnum (list_ascii_of_string (strip_non_alnum s)) = true.
Proof.
  induction s as [|c s IH]; [reflexivity|].
  cbn [strip_non_alnum]. destruct (alnum c) eqn:E; [|exact IH].
  cbn [list_ascii_of_string forallb]. now rewrite E.
Qed.

Lemma strip_non_alnum_fixed s :
  forallb alnum (list_ascii_of_string s) = true -> strip_non_alnum s = s.
Proof.
  induction s as [|c s IH]; [reflexivity|].
  cbn [list_ascii_of_string forallb strip_non_alnum].
  intros [Hc Hs]%andb_true_iff. rewrite Hc. now rewrite IH.
Qed.

Lemma strip_leading_all s :
  forallb alnum (list_ascii_of_string s) = true ->
  forallb alnum (list_ascii_of_string (strip_leading_non_lower s)) = true.
Proof.
  induction s as [|c s IH]; [reflexivity|].
  intros H. cbn [strip_leading_non_lower]. destruct (is_lower c); [exact H|].
  cbn [list_ascii_of_string forallb] in H. apply andb_true_iff in H as [_ H]. auto.
Qed.

Lemma strip_leading_fixed s :
  strip_leading_non_lower (strip_leading_non_lower s) = strip_leading_non_lower s.
Proof.
  induction s as [|c s IH]; [reflexivity|].
  cbn [strip_leading_non_lower]. destruct (is_lower c) eqn:E; [|exact IH].
  cbn [strip_leading_non_lower]. now rewrite E.
Qed.

Lemma strip_leading_no_lower s :
  forallb (fun c => negb (is_lower c)) (list_ascii_of_string s) = true ->
  strip_leading_non_lower s = EmptyString.
Proof.
  induction s as [|c s IH]; [reflexivity|].
  cbn [list_ascii_of_string forallb strip_leading_non_lower].
  intros [Hc Hs]%andb_true_iff. destruct (is_lower c); [discriminate|auto].
Qed.

Lemma strip_non_alnum_no_lower s :
  forallb (fun c => negb (is_lower c)) (list_ascii_of_string s) = true ->
  forallb (fun c => negb (is_lower c)) (list_ascii_of_string (strip_non_alnum s)) = true.
Proof.
  induction s as [|c s IH]; [reflexivity|].
  cbn [list_ascii_of_string forallb strip_non_alnum].
  intros [Hc Hs]%andb_true_iff. destruct (alnum c); [|auto].
  cbn [list_ascii_of_string forallb]. rewrite Hc. cbn [andb]. auto.
Qed.

End RegExpFacts.

(** ** Facts about traces *)

Section Traces.
Import Cli.

Lemma in_select_answers message default choices answer (t : list Call) :
  In (Select message default choices answer) t -> In answer (select_answers message t).
Proof.
  induction t as [|c t IH]; [easy|].
  intros [->|Hin]; cbn [select_answers].
  - rewrite String.eqb_refl. now left.
  - destruct c; auto. destruct (String.eqb _ _); [right|]; auto.
Qed.

Lemma in_input_answers message default answer (t : list Call) :
  In (Input message default answer) t -> In (default, answer) (input_answers message t).
Proof.
  induction t as [|c t IH]; [easy|].
  intros [->|Hin]; cbn [input_answers].
  - rewrite String.eqb_refl. now left.
  - destruct c; auto. destruct (String.eqb _ _); [right|]; auto.
Qed.

Lemma in_exec_failures command cwd e (t : list Call) :
  In (ExecSync command cwd (Some e)) t -> In (command, cwd, e) (exec_failures t).
Proof.
  induction t as [|c t IH]; [easy|].
  intros [->|Hin]; cbn [exec_failures].
  - now left.
  - destruct c as [| | | | |? ? []| | | | |]; auto. right; auto.
Qed.

Lemma exec_failures_in command cwd e (t : list Call) :
  In (command, cwd, e) (exec_failures t) -> In (ExecSync command cwd (Some e)) t.
Proof.
  induction t as [|c t IH]; [easy|].
  cbn [exec_failures].
  destruct c as [| | | | |? ? []| | | | |];
    try (intros Hrest; right; apply IH; exact Hrest).
  intros [Heq|Hrest]; [injection Heq as -> -> ->; now left|right; auto].
Qed.

End Traces.

(** ** Facts about the objects of the command *)

Section Objects.
Import Cli.

Lemma Object_assign_gnark (circuitName circuitType curveName gnark packageName provingScheme : string) :
  Object_assign
    ({[ "circuitName" := circuitName; "circuitType" := circuitType ]} : gmap string string)
    {[ "curveName" := curveName; "gnarkCurveName" := gnark;
       "packageName" := packageName; "provingScheme" := provingScheme ]}
  = {[ "curveName" := curveName; "gnarkCurveName" := gnark;
       "packageName" := packageName; "provingScheme" := provingScheme;
       "circuitName" := circuitName; "circuitType" := circuitType ]}.
Proof.
  unfold Object_assign.
  rewrite <- !insert_union_l. now rewrite <- insert_union_singleton_l.
Qed.

Lemma truncate_noisyKeys_noisy (e : gmap string JsValue) (key : string) :
  In key noisyKeys ->
  truncate_noisyKeys e !! key = (fun _ => JString "<truncated>") <$> e !! key.
Proof.
  unfold truncate_noisyKeys, noisyKeys. cbn [fold_left In].
  intros [<-|[<-|[<-|[]]]];
    destruct (e !! "output") eqn:Ho; destruct (e !! "stderr") eqn:He;
    destruct (e !! "stdout") eqn:Hs;
    repeat (rewrite ?lookup_insert_eq, ?Ho, ?He, ?Hs;
            try (rewrite lookup_insert_ne by discriminate));
    rewrite ?lookup_insert_eq, ?Ho, ?He, ?Hs; reflexivity.
Qed.

Lemma truncate_noisyKeys_other (e : gmap string JsValue) (key : string) :
  ~ In key noisyKeys -> truncate_noisyKeys e !! key = e !! key.
Proof.
  unfold truncate_noisyKeys, noisyKeys. cbn [fold_left In]. intros Hkey.
  assert (Ho : "output" <> key) by tauto.
  assert (He : "stderr" <> key) by tauto.
  assert (Hs : "stdout" <> key) by tauto.
  repeat match goal with
         | |- context [match ?m !! ?k with _ => _ end] => destruct (m !! k)
         end;
    rewrite ?lookup_insert_ne by assumption; reflexivity.
Qed.

End Objects.

(** ** The run of the command *)

Import Js Validators Cli.

(** Symbolic execution of a run, kept in the hypothesis [H]: the action
    and the monad are unfolded, then each step reduces the run up to the
    next answer of a collaborator and splits on that answer; the branches
    that contradict a hypothesis are closed on the way. *)
Ltac run_unfold_in H :=
  unfold initCommand, bind, try_catch, ret, process_exit,
    fs_existsSync, fs_statSync_isDirectory, fs_readdirSync, fs_mkdirSync, fs_rmSync,
    child_execSync, prompt_confirm, prompt_input, prompt_select, utils_scaffoldDirectory,
    logger, called, start in H.

Ltac run_simpl H :=
  cbv beta iota zeta delta [world calls app negb andb length Nat.ltb Nat.leb] in H.

Ltac run_step H :=
  run_simpl H;
  match type of H with
  | context [existsSync ?n ?p ?w] => destruct (existsSync n p w) eqn:?
  | context [statSync_isDirectory ?n ?p ?w] => destruct (statSync_isDirectory n p w) eqn:?
  | context [readdirSync ?n ?p ?w] => destruct (readdirSync n p w) eqn:?
  | context [confirm ?n ?m ?d ?w] => destruct (confirm n m d w) as [[] ?] eqn:?
  | context [input ?n ?m ?d ?v ?w] => destruct (input n m d v w) eqn:?
  | context [select ?n ?m ?d ?c ?w] => destruct (select n m d c w) eqn:?
  | context [execSync ?n ?c ?d ?w] => destruct (execSync n c d w) as [[] ?] eqn:?
  | context [scaffoldDirectory ?n ?t ?d ?c ?w] =>
      destruct (scaffoldDirectory n t d c w) as [[] ?] eqn:?
  | context [String.eqb ?a ?b] =>
      let E := fresh "Hkind" in
      destruct (String.eqb a b) eqn:E;
      [apply String.eqb_eq in E; subst | apply String.eqb_neq in E]
  end;
  try congruence.

(** Names the result of the run in the goal and follows every path of
    the run; on each path the trace is left in the context as
    [the_trace]. *)
Ltac run_cases :=
  unfold outcome, trace, final_world;
  match goal with
  | |- context [initCommand ?n ?d ?s] =>
      let Hrun := fresh "Hrun" in
      destruct (initCommand n d s) as [result final] eqn:Hrun;
      run_unfold_in Hrun;
      repeat run_step Hrun;
      run_simpl Hrun;
      lazymatch type of Hrun with
      | (_, {| world := _; calls := ?l |}) = _ => pose (the_trace := l)
      end;
      injection Hrun as <- <-;
      cbn [fst snd world calls]
  end.

(** Reads a membership in a trace, by the lemma [lem], as a membership
    in the few calls of the same kind that the function [f] keeps, and
    splits it. *)
Ltac pick lem f H :=
  apply lem in H;
  lazy beta iota zeta delta [f String.eqb Ascii.eqb Bool.eqb In] in H;
  repeat match type of H with
         | _ \/ _ => destruct H as [H|H]
         | False => destruct H
         end.

(** Finds a call in a trace that has been computed. *)
Ltac found := cbn [In]; repeat (first [left; reflexivity | right]).

(** The calls made before the last [k] calls of the trace of the run at
    hand, and before the [k]-th call after its first text prompt. *)
Ltac before_last k :=
  lazymatch goal with
  | the_trace := ?l |- _ => exists (firstn (length l - k) l)
  end.

Ltac first_input l :=
  lazymatch l with
  | Input _ _ _ :: _ => constr:(0)
  | _ :: ?l' => let n := first_input l' in constr:(S n)
  end.

Ltac before_prompt k :=
  lazymatch goal with
  | the_trace := ?l |- _ => let n := first_input l in exists (firstn (n + k) l)
  end.

(** ** The validators *)

Section ValidatorTheorems.
Import Js Validators.

(** C5: the package-name validator accepts exactly the strings that begin
    with a lowercase letter and go on with lowercase letters and digits
    only, which are the strings matching `^[a-z][a-z0-9]*$`; it rejects
    the empty string and every other string, each time with a reason. *)
Theorem C5_package_name_validation :
  (exists reason, validatePackageName EmptyString = VString reason /\ reason <> EmptyString) /\
  (forall input, test re_package input = true <-> package_ident input) /\
  (forall input, package_ident input -> input <> EmptyString /\ validatePackageName input = VBool true) /\
  (forall input, ~ package_ident input ->
     exists reason, validatePackageName input = VString reason /\ reason <> EmptyString).
Proof.
  split; [eexists; split; [reflexivity|discriminate]|].
  split; [intros input; rewrite package_ident_decide, test_re_package;
          destruct input; [split; [discriminate|tauto]|reflexivity]|].
  split; intros input; rewrite package_ident_decide, validatePackageName_spec;
    destruct input as [|c rest]; try tauto.
  - intros ->. split; [discriminate|reflexivity].
  - intros _. eexists; split; [reflexivity|discriminate].
  - intros Hno. destruct (_ && _); [tauto|].
    eexists; split; [reflexivity|discriminate].
Qed.

(** C6: deriving the default package name from a derived default package
    name changes nothing; the derivation is the two strips of the
    specification, one after the other. *)
Theorem C6_default_package_name_idempotent (circuitName : string) :
  defaultPackageName (defaultPackageName circuitName) = defaultPackageName circuitName /\
  defaultPackageName circuitName = strip_leading_non_lower (strip_non_alnum circuitName).
Proof.
  split; [|apply defaultPackageName_spec].
  rewrite !defaultPackageName_spec.
  rewrite (strip_non_alnum_fixed (strip_leading_non_lower _)).
  - apply strip_leading_fixed.
  - apply strip_leading_all, strip_non_alnum_all.
Qed.

End ValidatorTheorems.

(** ** The run of the command: theorems *)

Section Run.
Context {W : Type} (node : Node W).

(** What every run does at its prompts: the defaults of the two text
    prompts, the end of the run when the kind chosen is not "gnark", and
    what follows the choice of a curve. *)
Lemma prompt_stage (directory : string) (w : W) :
  let directoryPath := path_resolve node directory in
  (forall default answer,
     In (Input "Circuit Name:" default answer) (trace node directory w) ->
     default = defaultCircuitName (path_basename node directoryPath)) /\
  (forall default answer,
     In (Input "Go Package Name:" default answer) (trace node directory w) ->
     exists default' circuitName,
       In (Input "Circuit Name:" default' circuitName) (trace node directory w) /\
       default = defaultPackageName circuitName) /\
  (forall kind,
     kind <> "gnark" ->
     In (Select "Proving Framework:" "gnark" circuitType_choices kind)
        (trace node directory w) ->
     outcome node directory w = Exited 1 /\
     (exists before,
        trace node directory w =
          before ++ [Select "Proving Framework:" "gnark" circuitType_choices kind;
                     Log Fatal (Msg (msg_not_supported kind))]) /\
     scaffold_calls (trace node directory w) = []) /\
  (forall curveName,
     In (Select "Curve Name:" "bn254" curveName_choices curveName)
        (trace node directory w) ->
     exists before context thrown after,
       trace node directory w =
         before ++
         [Select "Curve Name:" "bn254" curveName_choices curveName;
          Log Info (Msg (msg_proceeding directoryPath));
          ScaffoldDirectory "common" directoryPath context thrown] ++ after /\
       context !! "curveName" = Some curveName /\
       context !! "gnarkCurveName" = Some (to_gnarkCurveName curveName)).
Proof.
  intros directoryPath. subst directoryPath.
  run_cases;
    (split;
     [intros default answer Hin; pick in_input_answers input_answers Hin;
      now injection Hin as <- _
     |split;
      [intros default answer Hin; pick in_input_answers input_answers Hin;
       injection Hin as <- _;
       do 2 eexists; (split; [|reflexivity]);
       cbn [In]; repeat (first [left; reflexivity | right])
      |split;
       [intros kind Hother Hsel; pick in_select_answers select_answers Hsel;
        try (symmetry in Hsel; contradiction); subst;
        (split; [reflexivity|split; [|reflexivity]]);
        before_last 2; reflexivity
       |intros curveName Hsel; pick in_select_answers select_answers Hsel; subst;
        rewrite !Object_assign_gnark;
        before_prompt 4; do 3 eexists; (split; [reflexivity|]);
        (split; [reflexivity|]);
        rewrite lookup_insert_ne by discriminate; apply lookup_insert_eq]]]).
Qed.

(** C3: when the target path exists and is not a directory, the run warns
    and exits with status 1; it asks no question, renders no template and
    leaves the world as it found it. *)
Theorem C3_not_a_directory_aborts (directory : string) (w : W) :
  existsSync node (path_resolve node directory) w = true ->
  statSync_isDirectory node (path_resolve node directory) w = false ->
  outcome node directory w = Exited 1 /\
  exit_status (outcome node directory w) = Some 1%Z /\
  trace node directory w =
    [ExistsSync (path_resolve node directory) true;
     StatSync_isDirectory (path_resolve node directory) false;
     Log Warn (Msg (msg_not_a_directory (path_resolve node directory)))] /\
  List.filter is_question (trace node directory w) = [] /\
  scaffold_calls (trace node directory w) = [] /\
  final_world node directory w = w.
Proof.
  intros Hexists Hfile.
  run_cases. repeat split; reflexivity.
Qed.

(** C2: when the target path is a directory with at least one entry, the
    run asks to confirm the overwrite, with default answer no. If the
    user declines, the run logs the abort and exits with status 1 without
    rendering any template, the world being as the prompt left it; if the
    user accepts, the next call is the "Circuit Name:" prompt. *)
Theorem C2_overwrite_confirmation (directory : string) (w : W) :
  let directoryPath := path_resolve node directory in
  let answer := confirm node (msg_overwrite directoryPath) false w in
  existsSync node directoryPath w = true ->
  statSync_isDirectory node directoryPath w = true ->
  readdirSync node directoryPath w <> [] ->
  exists rest,
    trace node directory w =
      ExistsSync directoryPath true ::
      StatSync_isDirectory directoryPath true ::
      ReaddirSync directoryPath (readdirSync node directoryPath w) ::
      Confirm (msg_overwrite directoryPath) false (fst answer) :: rest /\
    (fst answer = false ->
       rest = [Log Info (Msg "Aborting.")] /\
       outcome node directory w = Exited 1 /\
       exit_status (outcome node directory w) = Some 1%Z /\
       scaffold_calls (trace node directory w) = [] /\
       final_world node directory w = snd answer) /\
    (fst answer = true ->
       exists circuitName rest',
         rest = Input "Circuit Name:"
                  (defaultCircuitName (path_basename node directoryPath))
                  circuitName :: rest').
Proof.
  intros directoryPath answer Hexists Hdir Hentries. subst directoryPath answer.
  run_cases.
  all: eexists; split; [reflexivity|]; split; intros Hanswer; try discriminate Hanswer.
  all: try (repeat split; reflexivity).
  all: eexists; eexists; reflexivity.
Qed.


(** C4: the circuit-name validator rejects the empty string and every
    string with a character outside `[-a-zA-Z0-9_]`, each time with a
    non-empty reason, and accepts every non-empty string of hyphens,
    underscores and alphanumerics. The default of the "Circuit Name:"
    prompt is the base name of the target directory with every character
    outside the class replaced by a hyphen. *)
Theorem C4_circuit_name_validation (directory : string) (w : W) :
  (exists reason, validateCircuitName EmptyString = VString reason /\ reason <> EmptyString) /\
  (forall input c,
     In c (list_ascii_of_string input) -> name_char c = false ->
     exists reason, validateCircuitName input = VString reason /\ reason <> EmptyString) /\
  (forall input,
     input <> EmptyString ->
     Forall (fun c => name_char c = true) (list_ascii_of_string input) ->
     validateCircuitName input = VBool true) /\
  (forall default answer,
     In (Input "Circuit Name:" default answer) (trace node directory w) ->
     default = dash_outside_class (path_basename node (path_resolve node directory))).
Proof.
  split; [eexists; split; [reflexivity|discriminate]|].
  split; [|split].
  - intros input c Hin Hout. rewrite validateCircuitName_spec.
    destruct input as [|c0 rest]; [destruct Hin|]. cbn [String.length Nat.eqb].
    destruct (forallb name_char _) eqn:Hall; [|eexists; split; [reflexivity|discriminate]].
    rewrite forallb_forall in Hall. apply Hall in Hin. congruence.
  - intros input Hne Hall. rewrite validateCircuitName_spec.
    destruct input as [|c0 rest]; [congruence|]. cbn [String.length Nat.eqb].
    assert (Hb : forallb name_char (list_ascii_of_string (String c0 rest)) = true).
    { apply forallb_forall. intros x Hx. exact (proj1 (List.Forall_forall _ _) Hall x Hx). }
    now rewrite Hb.
  - intros default answer Hin. rewrite <- replace_not_name_char.
    exact (proj1 (prompt_stage directory w) default answer Hin).
Qed.

(** C7: for each of the six curve choices the derived name is the choice
    in upper case with its hyphen turned into an underscore, "BLS12_377"
    for "bls12-377"; right after the "Curve Name:" prompt the run goes on
    to the scaffolding, with no further question, and the context it
    passes holds the choice and the derived name. *)
Theorem C7_gnark_curve_name (directory : string) (w : W) (curveName : string) :
  let directoryPath := path_resolve node directory in
  In curveName (map snd curveName_choices) ->
  In (Select "Curve Name:" "bn254" curveName_choices curveName) (trace node directory w) ->
  to_gnarkCurveName curveName = upper_case_underscored curveName /\
  to_gnarkCurveName "bls12-377" = "BLS12_377" /\
  exists before context thrown after,
    trace node directory w =
      before ++
      [Select "Curve Name:" "bn254" curveName_choices curveName;
       Log Info (Msg (msg_proceeding directoryPath));
       ScaffoldDirectory "common" directoryPath context thrown] ++ after /\
    context !! "curveName" = Some curveName /\
    context !! "gnarkCurveName" = Some (to_gnarkCurveName curveName).
Proof.
  intros directoryPath Hchoice Hsel. subst directoryPath.
  split; [|split; [reflexivity|]].
  - cbn [map snd curveName_choices In] in Hchoice.
    repeat destruct Hchoice as [<-|Hchoice]; try reflexivity. destruct Hchoice.
  - exact (proj2 (proj2 (proj2 (prompt_stage directory w))) curveName Hsel).
Qed.


(** C9: a command run in the target directory that fails is one of the
    three of the bootstrap (`git init`, `git add`, `git commit`); its
    exception is caught: the run returns normally, with exit status 0 as
    when the bootstrap succeeds, and what follows the failure in the trace
    is two logs at error level and no call that touches the file system.
    The object logged is the exception with each of `output`, `stderr`,
    `stdout` that is present set to "<truncated>", absent ones staying
    absent and every other property unchanged. *)
Theorem C9_bootstrap_failure_contained
  (directory : string) (w : W) (command : string) (error : gmap string JsValue) :
  let directoryPath := path_resolve node directory in
  In (ExecSync command (Some directoryPath) (Some error)) (trace node directory w) ->
  In command ["git init ."; "git add ."; "git commit -m 'Initial commit.'"] /\
  outcome node directory w = Returned tt /\
  exit_status (outcome node directory w) = Some 0%Z /\
  (exists before,
     trace node directory w =
       before ++
       [ExecSync command (Some directoryPath) (Some error);
        Log Err (Msg "Error occurred while initializing the git repository.");
        Log Err (Obj (truncate_noisyKeys error))]) /\
  (forall key, In key ["output"; "stderr"; "stdout"] ->
     truncate_noisyKeys error !! key = (fun _ => JString "<truncated>") <$> error !! key) /\
  (forall key, ~ In key ["output"; "stderr"; "stdout"] ->
     truncate_noisyKeys error !! key = error !! key).
Proof.
  intros directoryPath. subst directoryPath.
  run_cases; intros Hfail; pick in_exec_failures exec_failures Hfail;
    try discriminate Hfail.
  all: injection Hfail as <- <-.
  all: split; [cbn [In]; tauto|].
  all: split; [reflexivity|]; split; [reflexivity|]; split;
    [before_last 3; reflexivity|].
  all: split; [apply truncate_noisyKeys_noisy | apply truncate_noisyKeys_other].
Qed.

(** C10: a circuit name without a lowercase letter has the empty string
    as derived package name, which the package-name validator rejects;
    "123" and "---" are such names and pass the circuit-name validator.
    The default of the "Go Package Name:" prompt is the name derived from
    the answer to "Circuit Name:". *)
Theorem C10_default_package_name_can_be_invalid (directory : string) (w : W) :
  (forall circuitName,
     Forall (fun c => is_lower c = false) (list_ascii_of_string circuitName) ->
     defaultPackageName circuitName = EmptyString /\
     exists reason, validatePackageName (defaultPackageName circuitName) = VString reason) /\
  (validateCircuitName "123" = VBool true /\ defaultPackageName "123" = EmptyString) /\
  (validateCircuitName "---" = VBool true /\ defaultPackageName "---" = EmptyString) /\
  (forall default answer,
     In (Input "Go Package Name:" default answer) (trace node directory w) ->
     exists default' circuitName,
       In (Input "Circuit Name:" default' circuitName) (trace node directory w) /\
       default = defaultPackageName circuitName).
Proof.
  split; [|split; [split; reflexivity|split; [split; reflexivity|]]].
  - intros circuitName Hno.
    assert (E : defaultPackageName circuitName = EmptyString).
    { rewrite defaultPackageName_spec.
      apply strip_leading_no_lower, strip_non_alnum_no_lower.
      apply forallb_forall. intros c Hc.
      apply (proj1 (List.Forall_forall _ _) Hno) in Hc. now rewrite Hc. }
    rewrite E. split; [reflexivity|]. eexists; reflexivity.
  - exact (proj1 (proj2 (prompt_stage directory w))).
Qed.

End Run.

(** ** The theorems at work in the scripted world *)

Import Scripted.


Lemma C2_overwrite_confirmation_witness :
  existsSync (node all_defaults) "/work/demo" {[ "/work/demo" := Directory ["old.txt"] ]} = true /\
  outcome (node all_defaults) "demo" {[ "/work/demo" := Directory ["old.txt"] ]} = Exited 1.
Proof.
  split; [reflexivity|].
  assert (Hexists : existsSync (node all_defaults) "/work/demo"
                       {[ "/work/demo" := Directory ["old.txt"] ]} = true)
    by reflexivity.
  assert (Hdirectory : statSync_isDirectory (node all_defaults) "/work/demo"
                          {[ "/work/demo" := Directory ["old.txt"] ]} = true)
    by reflexivity.
  assert (Hentries : readdirSync (node all_defaults) "/work/demo"
                        {[ "/work/demo" := Directory ["old.txt"] ]} <> [])
    by (vm_compute; discriminate).
  destruct (C2_overwrite_confirmation (node all_defaults) "demo"
              {[ "/work/demo" := Directory ["old.txt"] ]} Hexists Hdirectory Hentries)
    as (rest & _ & Hdecline & _).
  apply Hdecline. reflexivity.
Defined.

Lemma C3_not_a_directory_aborts_witness :
  statSync_isDirectory (node all_defaults) "/work/notes.txt" {[ "/work/notes.txt" := File ]} = false /\
  outcome (node all_defaults) "notes.txt" {[ "/work/notes.txt" := File ]} = Exited 1.
Proof.
  assert (Hexists : existsSync (node all_defaults) "/work/notes.txt"
                       {[ "/work/notes.txt" := File ]} = true)
    by reflexivity.
  assert (Hfile : statSync_isDirectory (node all_defaults) "/work/notes.txt"
                     {[ "/work/notes.txt" := File ]} = false)
    by reflexivity.
  split; [exact Hfile|].
  exact (proj1 (C3_not_a_directory_aborts (node all_defaults) "notes.txt"
                  {[ "/work/notes.txt" := File ]} Hexists Hfile)).
Defined.

Lemma C4_circuit_name_validation_witness :
  (exists reason, validateCircuitName "a b" = VString reason /\ reason <> EmptyString) /\
  validateCircuitName "my-circuit_1" = VBool true /\
  "my-project" = dash_outside_class "my project".
Proof.
  destruct (C4_circuit_name_validation (node all_defaults) "my project" ∅)
    as (_ & Hreject & Haccept & Hdefault).
  split; [|split].
  - apply (Hreject "a b" " "%char); [cbn; found|reflexivity].
  - apply Haccept; [discriminate|]. repeat constructor.
  - apply (Hdefault "my-project" "my-project").
    vm_compute. found.
Defined.

Lemma C5_package_name_validation_witness :
  validatePackageName "demo2" = VBool true /\
  (exists reason, validatePackageName "Demo" = VString reason /\ reason <> EmptyString).
Proof.
  destruct C5_package_name_validation as (_ & _ & Haccept & Hreject).
  split.
  - apply Haccept. cbn. split; [reflexivity|]. repeat constructor.
  - apply Hreject. cbn. intros [Hlower _]. discriminate Hlower.
Defined.

Lemma C7_gnark_curve_name_witness :
  In "bls12-377" (map snd curveName_choices) /\
  to_gnarkCurveName "bls12-377" = upper_case_underscored "bls12-377".
Proof.
  assert (Hchoice : In "bls12-377" (map snd curveName_choices)) by (cbn; found).
  split; [exact Hchoice|].
  assert (Hcurve : In (Select "Curve Name:" "bn254" curveName_choices "bls12-377")
                      (trace (node (answering "Curve Name:" "bls12-377")) "demo" ∅))
    by (vm_compute; found).
  exact (proj1 (C7_gnark_curve_name (node (answering "Curve Name:" "bls12-377")) "demo" ∅
                  "bls12-377" Hchoice Hcurve)).
Defined.


Lemma C9_bootstrap_failure_contained_witness :
  In (ExecSync "git commit -m 'Initial commit.'" (Some "/work/demo") (Some git_failure))
     (trace (node (failing "git commit -m 'Initial commit.'" git_failure)) "demo" ∅) /\
  outcome (node (failing "git commit -m 'Initial commit.'" git_failure)) "demo" ∅
  = Returned tt /\
  truncate_noisyKeys git_failure !! "stderr" = Some (JString "<truncated>") /\
  truncate_noisyKeys git_failure !! "stdout" = None /\
  truncate_noisyKeys git_failure !! "status" = Some (JNumber 128).
Proof.
  assert (Hfailed : In (ExecSync "git commit -m 'Initial commit.'" (Some "/work/demo")
                          (Some git_failure))
                       (trace (node (failing "git commit -m 'Initial commit.'" git_failure))
                          "demo" ∅))
    by (apply exec_failures_in; vm_compute; found).
  split; [exact Hfailed|].
  destruct (C9_bootstrap_failure_contained
              (node (failing "git commit -m 'Initial commit.'" git_failure)) "demo" ∅
              "git commit -m 'Initial commit.'" git_failure Hfailed)
    as (_ & Hreturned & _ & _ & Hnoisy & Hother).
  split; [exact Hreturned|]. split; [|split].
  - etrans; [apply Hnoisy; found|]. vm_compute. reflexivity.
  - etrans; [apply Hnoisy; found|]. vm_compute. reflexivity.
  - etrans; [apply Hother|vm_compute; reflexivity].
    intros [H|[H|[H|[]]]]; discriminate H.
Defined.

Lemma C10_default_package_name_can_be_invalid_witness :
  validateCircuitName "123" = VBool true /\
  (exists reason, validatePackageName (defaultPackageName "123") = VString reason) /\
  In (Input "Go Package Name:" EmptyString EmptyString)
     (trace (node (answering "Circuit Name:" "123")) "demo" ∅).
Proof.
  destruct (C10_default_package_name_can_be_invalid
              (node (answering "Circuit Name:" "123")) "demo" ∅)
    as (Hempty & (Hvalid & _) & _ & _).
  split; [exact Hvalid|]. split.
  - apply Hempty. repeat constructor.
  - vm_compute. found.
Defined.

(** * Further properties

    The rest of the action: the creation of the target directory, the
    defaults offered, how a run ends, what it writes, asks, runs and
    renders, and the stage of the git repository. *)

Import TraceReading.

(** ** Facts about the defaults *)

Section DefaultsFacts.

Lemma dash_outside_class_length d :
  String.length (dash_outside_class d) = String.length d.
Proof. induction d as [|c d IH]; [reflexivity|]. cbn. now rewrite IH. Qed.

Lemma dash_outside_class_all d :
  forallb name_char (list_ascii_of_string (dash_outside_class d)) = true.
Proof.
  induction d as [|c d IH]; [reflexivity|].
  cbn [dash_outside_class list_ascii_of_string forallb].
  rewrite IH, andb_true_r. now destruct (name_char c) eqn:E.
Qed.

Lemma dash_outside_class_fixed d :
  forallb name_char (list_ascii_of_string d) = true -> dash_outside_class d = d.
Proof.
  induction d as [|c d IH]; [reflexivity|].
  cbn [dash_outside_class list_ascii_of_string forallb].
  intros [Hc Hd]%andb_true_iff. now rewrite Hc, IH.
Qed.










Lemma classes_disjoint x : is_lower x || is_digit x = true -> is_upper x = false.
Proof. destruct x as [[] [] [] [] [] [] [] []]; vm_compute; congruence. Qed.

Lemma alnum_not_upper x : alnum x = true -> is_upper x = false -> is_lower x || is_digit x = true.
Proof. unfold alnum. destruct (is_lower x), (is_upper x), (is_digit x); cbn; congruence. Qed.

Lemma strip_leading_head s c rest :
  strip_leading_non_lower s = String c rest -> is_lower c = true.
Proof.
  induction s as [|x s IH]; [discriminate|].
  cbn [strip_leading_non_lower]. destruct (is_lower x) eqn:E; [|exact IH].
  now intros [= <- _].
Qed.

Lemma strip_leading_starts_lower c rest :
  is_lower c = true -> strip_leading_non_lower (String c rest) = String c rest.
Proof. intros E. cbn [strip_leading_non_lower]. now rewrite E. Qed.

End DefaultsFacts.

Section DefaultsTheorems.

(** X3: The default of the "Circuit Name:" prompt has the length of the
    directory name; the circuit-name validator accepts it exactly when
    the directory name is not empty; a directory name that the validator
    accepts is offered unchanged. *)
Theorem defaultCircuitName_offered (directoryName : string) :
  String.length (defaultCircuitName directoryName) = String.length directoryName /\
  (validateCircuitName (defaultCircuitName directoryName) = VBool true <->
   directoryName <> EmptyString) /\
  (validateCircuitName directoryName = VBool true ->
   defaultCircuitName directoryName = directoryName).
Proof.
  rewrite replace_not_name_char. split; [apply dash_outside_class_length|]. split.
  - rewrite validateCircuitName_spec, dash_outside_class_all.
    destruct directoryName as [|c d]; cbn; split; congruence.
  - rewrite validateCircuitName_spec.
    destruct (String.length directoryName =? 0)%nat; [discriminate|].
    destruct (forallb name_char _) eqn:Hall; [|discriminate].
    intros _. now apply dash_outside_class_fixed.
Qed.

(** X4: The default of the "Go Package Name:" prompt is made of letters and
    digits; the package-name validator accepts it exactly when it is not
    empty and has no upper-case letter; a circuit name that the
    package-name validator accepts is offered unchanged. *)
Theorem defaultPackageName_offered (circuitName : string) :
  let offered := defaultPackageName circuitName in
  forallb alnum (list_ascii_of_string offered) = true /\
  (validatePackageName offered = VBool true <->
   offered <> EmptyString /\
   Forall (fun c => is_upper c = false) (list_ascii_of_string offered)) /\
  (validatePackageName circuitName = VBool true -> offered = circuitName).
Proof.
  cbv zeta. rewrite defaultPackageName_spec.
  assert (Hall := strip_leading_all _ (strip_non_alnum_all circuitName)).
  split; [exact Hall|]. split.
  - rewrite validatePackageName_spec.
    destruct (strip_leading_non_lower (strip_non_alnum circuitName)) as [|c rest] eqn:E.
    { split; [discriminate|]. intros [Hne _]. congruence. }
    apply strip_leading_head in E. rewrite E. cbn [andb].
    cbn [list_ascii_of_string forallb] in Hall. apply andb_true_iff in Hall as [_ Hrest].
    rewrite forallb_forall in Hrest.
    destruct (forallb _ (list_ascii_of_string rest)) eqn:Hld.
    + split; [|reflexivity]. intros _. split; [discriminate|].
      rewrite forallb_forall in Hld.
      cbn [list_ascii_of_string]. constructor.
      * apply classes_disjoint. now rewrite E.
      * apply List.Forall_forall. intros x Hx. apply classes_disjoint. auto.
    + split; [discriminate|]. intros [_ Hup]. exfalso.
      cbn [list_ascii_of_string] in Hup. apply List.Forall_cons_iff in Hup as [_ Hup].
      assert (Hall' : forallb (fun x => is_lower x || is_digit x) (list_ascii_of_string rest) = true).
      { apply forallb_forall. intros x Hx. apply alnum_not_upper; [auto|].
        exact (proj1 (List.Forall_forall _ _) Hup x Hx). }
      congruence.
  - rewrite validatePackageName_spec.
    destruct circuitName as [|c rest]; [discriminate|].
    destruct (is_lower c) eqn:Hc; [|discriminate]. cbn [andb].
    destruct (forallb _ (list_ascii_of_string rest)) eqn:Hrest; [|discriminate].
    intros _. rewrite strip_non_alnum_fixed.
    + now apply strip_leading_starts_lower.
    + cbn [list_ascii_of_string forallb]. unfold alnum at 1. rewrite Hc. cbn [orb andb].
      apply forallb_forall. intros x Hx. rewrite forallb_forall in Hrest.
      specialize (Hrest x Hx). unfold alnum.
      destruct (is_lower x), (is_digit x), (is_upper x); cbn in *; congruence.
Qed.


(** X7: The clean-up of a caught error keeps the set of its properties and,
    done twice, gives what it gives done once. *)
Theorem truncate_noisyKeys_idempotent (execError : gmap string JsValue) :
  dom (truncate_noisyKeys execError) = dom execError /\
  truncate_noisyKeys (truncate_noisyKeys execError) = truncate_noisyKeys execError.
Proof.
  assert (Hlookup : forall (e : gmap string JsValue) key,
            truncate_noisyKeys e !! key =
              if bool_decide (In key noisyKeys)
              then (fun _ => JString "<truncated>") <$> e !! key else e !! key).
  { intros e key. case_bool_decide.
    - now apply truncate_noisyKeys_noisy.
    - now apply truncate_noisyKeys_other. }
  split.
  - apply set_eq. intros key. rewrite !elem_of_dom, Hlookup.
    case_bool_decide; [|reflexivity]. now rewrite fmap_is_Some.
  - apply map_eq. intros key. rewrite !Hlookup.
    case_bool_decide; [|reflexivity]. now destruct (execError !! key).
Qed.

(** X5: Neither validator ever answers `false`: a rejection always comes with
    its reason. A name that the package-name validator accepts is also
    accepted by the circuit-name validator. *)
Theorem validators_answer (input : string) :
  validateCircuitName input <> VBool false /\
  validatePackageName input <> VBool false /\
  (validatePackageName input = VBool true -> validateCircuitName input = VBool true).
Proof.
  rewrite validateCircuitName_spec, validatePackageName_spec.
  split; [|split].
  - destruct (String.length input =? 0)%nat; [discriminate|].
    destruct (forallb _ _); discriminate.
  - destruct input as [|c rest]; [discriminate|]. destruct (_ && _); discriminate.
  - destruct input as [|c rest]; [discriminate|].
    destruct (is_lower c) eqn:Hc; [|discriminate]. cbn [andb].
    destruct (forallb _ (list_ascii_of_string rest)) eqn:Hrest; [|discriminate].
    intros _. cbn [String.length Nat.eqb list_ascii_of_string forallb].
    assert (Hname : forall x, is_lower x || is_digit x = true -> name_char x = true).
    { intros x Hx. unfold name_char.
      destruct (Ascii.eqb x "-"), (Ascii.eqb x "_"), (is_lower x), (is_upper x),
        (is_digit x); cbn in *; congruence. }
    rewrite (Hname c) by now rewrite Hc. cbn [andb].
    replace (forallb name_char (list_ascii_of_string rest)) with true; [reflexivity|].
    symmetry. apply forallb_forall. intros x Hx. apply Hname.
    rewrite forallb_forall in Hrest. auto.
Qed.

End DefaultsTheorems.

(** ** More facts about traces *)

Section MoreTraces.

Lemma in_exec_returns command cwd (t : list Call) :
  In (ExecSync command cwd None) t -> In (command, cwd) (exec_returns t).
Proof.
  induction t as [|c t IH]; [easy|].
  intros [->|Hin]; cbn [exec_returns].
  - now left.
  - destruct c as [| | | | |? ? []| | | | |]; auto. right; auto.
Qed.

Lemma in_scaffold_results name dir context thrown (t : list Call) :
  In (ScaffoldDirectory name dir context thrown) t ->
  In (name, dir, context, thrown) (scaffold_results t).
Proof.
  induction t as [|c t IH]; [easy|].
  intros [->|Hin]; cbn [scaffold_results].
  - now left.
  - destruct c; auto. right; auto.
Qed.

Lemma exec_returns_in command cwd (t : list Call) :
  In (command, cwd) (exec_returns t) -> In (ExecSync command cwd None) t.
Proof.
  induction t as [|c t IH]; [easy|].
  cbn [exec_returns].
  destruct c as [| | | | |? ? []| | | | |];
    try (intros Hrest; right; apply IH; exact Hrest).
  intros [Heq|Hrest]; [injection Heq as -> ->; now left|right; auto].
Qed.

Lemma scaffold_results_in name dir context thrown (t : list Call) :
  In (name, dir, context, thrown) (scaffold_results t) ->
  In (ScaffoldDirectory name dir context thrown) t.
Proof.
  induction t as [|c t IH]; [easy|].
  cbn [scaffold_results].
  destruct c; try (intros Hrest; right; apply IH; exact Hrest).
  intros [Heq|Hrest]; [injection Heq as -> -> -> ->; now left|right; auto].
Qed.

End MoreTraces.

Ltac index_of_version l :=
  lazymatch l with
  | ExecSync "git --version" _ _ :: _ => constr:(0)
  | _ :: ?l' => let n := index_of_version l' in constr:(S n)
  end.

Ltac index_of_init l :=
  lazymatch l with
  | ExecSync "git init ." _ _ :: _ => constr:(0)
  | _ :: ?l' => let n := index_of_init l' in constr:(S n)
  end.

(** Closes what is left of a description of the calls that follow a given
    call, once the calls before it are known. *)
Ltac follow :=
  repeat first
    [ reflexivity
    | progress intros
    | match goal with H : true = false |- _ => discriminate H end
    | match goal with H : false = true |- _ => discriminate H end
    | match goal with H : Some _ = None |- _ => discriminate H end
    | split
    | eexists ].

Ltac index_of_rm l :=
  lazymatch l with
  | RmSync _ :: _ => constr:(0)
  | _ :: ?l' => let n := index_of_rm l' in constr:(S n)
  end.

Section MoreRuns.
Context {W : Type} (node : Node W).

Lemma run_discipline (directory : string) (w : W) :
  let directoryPath := path_resolve node directory in
  let gitKeepFile := path_join node directoryPath ".gitkeep" in
  (* how a run ends *)
  match outcome node directory w with
  | Returned _ =>
      exists context,
        scaffold_results (trace node directory w) =
          [("common", directoryPath, context, None);
           ("gnark", directoryPath, context, None)]
  | Exited code =>
      code = 1%Z /\
      scaffold_results (trace node directory w) = [] /\
      exec_commands (trace node directory w) = [] /\
      exists before level message,
        trace node directory w = before ++ [Log level (Msg message)] /\
        In level [Warn; Info; Fatal]
  | Thrown e =>
      exists before name context,
        trace node directory w =
          before ++ [ScaffoldDirectory name directoryPath context (Some e)]
  end /\
  (* what it writes *)
  (exists removed : bool,
     List.filter is_fs_write (trace node directory w) =
       (if existsSync node directoryPath w then [] else [MkdirSync directoryPath true]) ++
       (if removed then [RmSync gitKeepFile] else []) /\
     (removed = true ->
      exists before context after,
        trace node directory w =
          before ++ ExistsSync gitKeepFile true :: RmSync gitKeepFile :: after /\
        scaffold_results before =
          [("common", directoryPath, context, None);
           ("gnark", directoryPath, context, None)])) /\
  (* what it asks *)
  (let sequence :=
     ["Circuit Name:"; "Proving Framework:"; "Go Package Name:"; "Proving Scheme:";
      "Curve Name:"; msg_confirm_git directoryPath] in
   (exists rest, sequence = question_messages (trace node directory w) ++ rest) \/
   (exists rest,
      msg_overwrite directoryPath :: sequence =
        question_messages (trace node directory w) ++ rest)) /\
  (* what it runs *)
  ((exists rest,
      [("git --version", None); ("git init .", Some directoryPath);
       ("git add .", Some directoryPath);
       ("git commit -m 'Initial commit.'", Some directoryPath)] =
        exec_commands (trace node directory w) ++ rest) /\
   exec_commands (trace node directory w) =
     exec_returns (trace node directory w) ++
     map fst (exec_failures (trace node directory w)) /\
   (length (exec_failures (trace node directory w)) <= 1)%nat) /\
  (* what it renders *)
  (forall name dir context thrown,
     In (ScaffoldDirectory name dir context thrown) (trace node directory w) ->
     dir = directoryPath /\
     In name ["common"; "gnark"] /\
     select_answers "Proving Framework:" (trace node directory w) = ["gnark"] /\
     context !! "circuitType" = Some "gnark").
Proof.
  intros directoryPath gitKeepFile. subst directoryPath gitKeepFile.
  run_cases; lazy beta iota;
    (split;
     [first
        [ eexists; reflexivity
        | split; [reflexivity|split; [reflexivity|split; [reflexivity|]]];
          before_last 1; do 2 eexists; split; [reflexivity|found]
        | before_last 1; do 2 eexists; reflexivity ]
     |split;
      [lazymatch goal with
       | the_trace := ?l |- _ =>
           first
             [ let n := index_of_rm l in
               exists true; split; [reflexivity|];
               intros _; exists (firstn (n - 1) l); do 2 eexists;
               split; reflexivity
             | exists false; split; [reflexivity|]; intros Hf; discriminate Hf ]
       end
      |split;
       [first [left; eexists; reflexivity | right; eexists; reflexivity]
       |split;
        [split; [eexists; reflexivity|split; [reflexivity|cbn; lia]]
        |intros name dir context thrown Hin;
         pick in_scaffold_results scaffold_results Hin;
         injection Hin as <- <- <- _;
         (split; [reflexivity|split; [found|split; [reflexivity|]]]);
         rewrite Object_assign_gnark;
         repeat (rewrite lookup_insert_ne by discriminate);
         apply lookup_singleton_eq]]]]).
Qed.

Lemma git_stage (directory : string) (w : W) :
  let directoryPath := path_resolve node directory in
  let gitDirectory := path_join node directoryPath ".git" in
  (* git is not installed *)
  (forall e,
     In (ExecSync "git --version" None (Some e)) (trace node directory w) ->
     outcome node directory w = Returned tt /\
     exists before already,
       trace node directory w =
         before ++
         [ExecSync "git --version" None (Some e);
          Log Debug (Msg "Git is not installed, skipping git initialization questions.");
          ExistsSync gitDirectory already]) /\
  (* git is installed *)
  (In (ExecSync "git --version" None None) (trace node directory w) ->
   outcome node directory w = Returned tt /\
   exists before already rest,
     trace node directory w =
       before ++ ExecSync "git --version" None None ::
       ExistsSync gitDirectory already :: rest /\
     (already = true -> rest = []) /\
     (already = false ->
      exists accepted rest',
        rest = Confirm (msg_confirm_git directoryPath) true accepted :: rest' /\
        (accepted = false -> rest' = []) /\
        (accepted = true ->
         exists thrown rest'',
           rest' = Log Info (Msg (msg_initializing_git directoryPath)) ::
                   ExecSync "git init ." (Some directoryPath) thrown :: rest''))) /\
  (* the repository is initialised *)
  (In (ExecSync "git init ." (Some directoryPath) None) (trace node directory w) ->
   outcome node directory w = Returned tt /\
   exists before added rest,
     trace node directory w =
       before ++ ExecSync "git init ." (Some directoryPath) None ::
       ExecSync "git add ." (Some directoryPath) added :: rest /\
     (added = None ->
      exists committed rest',
        rest = ExecSync "git commit -m 'Initial commit.'" (Some directoryPath) committed ::
               rest' /\
        (committed = None ->
         rest' = [Log Info (Msg "Successfully initialized git repository.")]))).
Proof.
  intros directoryPath gitDirectory. subst directoryPath gitDirectory.
  run_cases;
    (split;
     [intros e Hin; pick in_exec_failures exec_failures Hin; try discriminate Hin;
      injection Hin as <-; (split; [reflexivity|]);
      before_last 3; eexists; reflexivity
     |split;
      [intros Hin; pick in_exec_returns exec_returns Hin; try discriminate Hin;
       (split; [reflexivity|]);
       lazymatch goal with
       | the_trace := ?l |- _ =>
           let n := index_of_version l in exists (firstn n l)
       end; follow
      |intros Hin; pick in_exec_returns exec_returns Hin; try discriminate Hin;
       (split; [reflexivity|]);
       lazymatch goal with
       | the_trace := ?l |- _ =>
           let n := index_of_init l in exists (firstn n l)
       end; follow]]).
Qed.


(** X2: A target path that is an empty directory: the run goes on to the
    "Circuit Name:" prompt without a question; no question of the run has
    "no" as its default answer, and nothing is created. *)
Theorem empty_directory_proceeds (directory : string) (w : W) :
  let directoryPath := path_resolve node directory in
  existsSync node directoryPath w = true ->
  statSync_isDirectory node directoryPath w = true ->
  readdirSync node directoryPath w = [] ->
  (exists circuitName rest,
     trace node directory w =
       ExistsSync directoryPath true ::
       StatSync_isDirectory directoryPath true ::
       ReaddirSync directoryPath [] ::
       Input "Circuit Name:" (defaultCircuitName (path_basename node directoryPath))
         circuitName :: rest) /\
  (forall message answer, ~ In (Confirm message false answer) (trace node directory w)) /\
  (forall path recursive, ~ In (MkdirSync path recursive) (trace node directory w)).
Proof.
  intros directoryPath Hexists Hdirectory Hempty. subst directoryPath.
  run_cases.
  all: split; [do 2 eexists; reflexivity|].
  all: split; intros ? ? Hin; cbn [In] in Hin.
  all: repeat match type of Hin with
              | _ \/ _ => destruct Hin as [Hin|Hin]; [discriminate Hin|]
              | False => destruct Hin
              end.
Qed.


(** X9: The writes of a run to the file system: the creation of the target
    directory when it does not exist, then at most the removal of
    `.gitkeep` in it. The removal comes right after `existsSync` has
    found the file, and after both template sets are rendered. *)
Theorem file_system_writes (directory : string) (w : W) :
  let directoryPath := path_resolve node directory in
  let gitKeepFile := path_join node directoryPath ".gitkeep" in
  exists removed : bool,
    List.filter is_fs_write (trace node directory w) =
      (if existsSync node directoryPath w then [] else [MkdirSync directoryPath true]) ++
      (if removed then [RmSync gitKeepFile] else []) /\
    (removed = true ->
     exists before context after,
       trace node directory w =
         before ++ ExistsSync gitKeepFile true :: RmSync gitKeepFile :: after /\
       scaffold_results before =
         [("common", directoryPath, context, None);
          ("gnark", directoryPath, context, None)]).
Proof. exact (proj1 (proj2 (run_discipline directory w))). Qed.

(** X10: The questions of a run, in the order asked, are the first ones of a
    fixed sequence: the two names, kind, scheme and curve prompts and the
    confirmation of the git repository, with the confirmation of the
    overwrite before them when it is asked. *)
Theorem questions_in_order (directory : string) (w : W) :
  let directoryPath := path_resolve node directory in
  let sequence :=
    ["Circuit Name:"; "Proving Framework:"; "Go Package Name:"; "Proving Scheme:";
     "Curve Name:"; msg_confirm_git directoryPath] in
  (exists rest, sequence = question_messages (trace node directory w) ++ rest) \/
  (exists rest,
     msg_overwrite directoryPath :: sequence =
       question_messages (trace node directory w) ++ rest).
Proof. exact (proj1 (proj2 (proj2 (run_discipline directory w)))). Qed.

(** X11: The commands of a run are the first ones of `git --version`,
    `git init .`, `git add .`, `git commit`, the last three in the target
    directory; a command that fails is the last one run, so that at most
    one fails. *)
Theorem commands_in_order (directory : string) (w : W) :
  let directoryPath := path_resolve node directory in
  (exists rest,
     [("git --version", None); ("git init .", Some directoryPath);
      ("git add .", Some directoryPath);
      ("git commit -m 'Initial commit.'", Some directoryPath)] =
       exec_commands (trace node directory w) ++ rest) /\
  exec_commands (trace node directory w) =
    exec_returns (trace node directory w) ++
    map fst (exec_failures (trace node directory w)) /\
  (length (exec_failures (trace node directory w)) <= 1)%nat.
Proof. exact (proj1 (proj2 (proj2 (proj2 (run_discipline directory w))))). Qed.

(** X12: A template set is rendered only into the target directory, only
    under the name "common" or "gnark", and only when "gnark" is the
    answer to the one "Proving Framework:" prompt, the context saying so. *)
Theorem rendering_only_for_gnark
  (directory : string) (w : W) (name dir : string)
  (context : gmap string string) (thrown : option (gmap string JsValue)) :
  In (ScaffoldDirectory name dir context thrown) (trace node directory w) ->
  dir = path_resolve node directory /\
  In name ["common"; "gnark"] /\
  select_answers "Proving Framework:" (trace node directory w) = ["gnark"] /\
  context !! "circuitType" = Some "gnark".
Proof.
  exact (proj2 (proj2 (proj2 (proj2 (run_discipline directory w))))
           name dir context thrown).
Qed.

(** X13: When `git --version` fails, the failure is caught and logged at
    debug level; the run then only looks for `.git` in the target
    directory and returns: it asks nothing and runs no other command. *)
Theorem git_not_installed (directory : string) (w : W) (e : gmap string JsValue) :
  let directoryPath := path_resolve node directory in
  let gitDirectory := path_join node directoryPath ".git" in
  In (ExecSync "git --version" None (Some e)) (trace node directory w) ->
  outcome node directory w = Returned tt /\
  exists before already,
    trace node directory w =
      before ++
      [ExecSync "git --version" None (Some e);
       Log Debug (Msg "Git is not installed, skipping git initialization questions.");
       ExistsSync gitDirectory already].
Proof. exact (proj1 (git_stage directory w) e). Qed.

(** X14: When `git --version` returns, the run looks for `.git` in the target
    directory. If it is there the run ends, without a question. If not,
    the run asks whether to initialise a repository, the default answer
    being yes; a refusal ends the run, an acceptance is followed by a log
    and by `git init .` in the target directory. The run returns in all
    these cases. *)
Theorem git_installed (directory : string) (w : W) :
  let directoryPath := path_resolve node directory in
  let gitDirectory := path_join node directoryPath ".git" in
  In (ExecSync "git --version" None None) (trace node directory w) ->
  outcome node directory w = Returned tt /\
  exists before already rest,
    trace node directory w =
      before ++ ExecSync "git --version" None None ::
      ExistsSync gitDirectory already :: rest /\
    (already = true -> rest = []) /\
    (already = false ->
     exists accepted rest',
       rest = Confirm (msg_confirm_git directoryPath) true accepted :: rest' /\
       (accepted = false -> rest' = []) /\
       (accepted = true ->
        exists thrown rest'',
          rest' = Log Info (Msg (msg_initializing_git directoryPath)) ::
                  ExecSync "git init ." (Some directoryPath) thrown :: rest'')).
Proof. exact (proj1 (proj2 (git_stage directory w))). Qed.

(** X15: When `git init .` returns, `git add .` is run next in the target
    directory; when that returns, `git commit` is; when that returns, the
    success is logged and this is the last call. The run returns. *)
Theorem repository_initialised (directory : string) (w : W) :
  let directoryPath := path_resolve node directory in
  In (ExecSync "git init ." (Some directoryPath) None) (trace node directory w) ->
  outcome node directory w = Returned tt /\
  exists before added rest,
    trace node directory w =
      before ++ ExecSync "git init ." (Some directoryPath) None ::
      ExecSync "git add ." (Some directoryPath) added :: rest /\
    (added = None ->
     exists committed rest',
       rest = ExecSync "git commit -m 'Initial commit.'" (Some directoryPath) committed ::
              rest' /\
       (committed = None ->
        rest' = [Log Info (Msg "Successfully initialized git repository.")])).
Proof. exact (proj2 (proj2 (git_stage directory w))). Qed.

End MoreRuns.

(** ** The further properties in the scripted world *)

Lemma defaultCircuitName_offered_witness :
  validateCircuitName "my-circuit" = VBool true /\
  defaultCircuitName "my-circuit" = "my-circuit".
Proof.
  assert (Hvalid : validateCircuitName "my-circuit" = VBool true) by reflexivity.
  split; [exact Hvalid|].
  exact (proj2 (proj2 (defaultCircuitName_offered "my-circuit")) Hvalid).
Defined.

Lemma defaultPackageName_offered_witness :
  validatePackageName "demo2" = VBool true /\
  defaultPackageName "demo2" = "demo2".
Proof.
  assert (Hvalid : validatePackageName "demo2" = VBool true) by reflexivity.
  split; [exact Hvalid|].
  exact (proj2 (proj2 (defaultPackageName_offered "demo2")) Hvalid).
Defined.


Lemma validators_answer_witness :
  validatePackageName "demo2" = VBool true /\
  validateCircuitName "demo2" = VBool true.
Proof.
  assert (Hvalid : validatePackageName "demo2" = VBool true) by reflexivity.
  split; [exact Hvalid|].
  exact (proj2 (proj2 (validators_answer "demo2")) Hvalid).
Defined.


Lemma empty_directory_proceeds_witness :
  readdirSync (node all_defaults) "/work/demo" {[ "/work/demo" := Directory [] ]} = [] /\
  forall path recursive,
    ~ In (MkdirSync path recursive)
        (trace (node all_defaults) "demo" {[ "/work/demo" := Directory [] ]}).
Proof.
  assert (Hexists : existsSync (node all_defaults) "/work/demo"
                       {[ "/work/demo" := Directory [] ]} = true) by reflexivity.
  assert (Hdirectory : statSync_isDirectory (node all_defaults) "/work/demo"
                          {[ "/work/demo" := Directory [] ]} = true) by reflexivity.
  assert (Hempty : readdirSync (node all_defaults) "/work/demo"
                     {[ "/work/demo" := Directory [] ]} = []) by reflexivity.
  split; [exact Hempty|].
  exact (proj2 (proj2 (empty_directory_proceeds (node all_defaults) "demo"
                         {[ "/work/demo" := Directory [] ]} Hexists Hdirectory Hempty))).
Defined.

Lemma file_system_writes_witness :
  exists before after,
    trace (node all_defaults) "demo" {[ "/work/demo/.gitkeep" := File ]} =
      before ++ ExistsSync "/work/demo/.gitkeep" true ::
      RmSync "/work/demo/.gitkeep" :: after.
Proof.
  destruct (file_system_writes (node all_defaults) "demo"
              {[ "/work/demo/.gitkeep" := File ]})
    as ([|] & Hwrites & Hremoved).
  - destruct (Hremoved eq_refl) as (before & context & after & Htrace & _).
    exists before, after. exact Htrace.
  - vm_compute in Hwrites. discriminate Hwrites.
Defined.

Lemma rendering_only_for_gnark_witness :
  exists context,
    In (ScaffoldDirectory "gnark" "/work/demo" context None)
       (trace (node all_defaults) "demo" ∅) /\
    context !! "circuitType" = Some "gnark".
Proof.
  assert (Hreturned : outcome (node all_defaults) "demo" ∅ = Returned tt)
    by (vm_compute; reflexivity).
  pose proof (proj1 (run_discipline (node all_defaults) "demo" ∅)) as Hend.
  cbv zeta in Hend. rewrite Hreturned in Hend. destruct Hend as [context Hrendered].
  assert (Hgnark : In (ScaffoldDirectory "gnark" "/work/demo" context None)
                      (trace (node all_defaults) "demo" ∅)).
  { apply scaffold_results_in. rewrite Hrendered. right. left. reflexivity. }
  exists context. split; [exact Hgnark|].
  exact (proj2 (proj2 (proj2 (rendering_only_for_gnark (node all_defaults) "demo" ∅
                                _ _ _ _ Hgnark)))).
Defined.

Lemma git_not_installed_witness :
  In (ExecSync "git --version" None (Some ∅))
     (trace (node (failing "git --version" ∅)) "demo" ∅) /\
  outcome (node (failing "git --version" ∅)) "demo" ∅ = Returned tt.
Proof.
  assert (Hfailed : In (ExecSync "git --version" None (Some ∅))
                       (trace (node (failing "git --version" ∅)) "demo" ∅))
    by (apply exec_failures_in; vm_compute; found).
  split; [exact Hfailed|].
  exact (proj1 (git_not_installed (node (failing "git --version" ∅)) "demo" ∅
                  ∅ Hfailed)).
Defined.

Lemma git_installed_witness :
  In (ExecSync "git --version" None None) (trace (node all_defaults) "demo" ∅) /\
  outcome (node all_defaults) "demo" ∅ = Returned tt.
Proof.
  assert (Hinstalled : In (ExecSync "git --version" None None)
                          (trace (node all_defaults) "demo" ∅))
    by (apply exec_returns_in; vm_compute; found).
  split; [exact Hinstalled|].
  exact (proj1 (git_installed (node all_defaults) "demo" ∅ Hinstalled)).
Defined.

Lemma repository_initialised_witness :
  In (ExecSync "git init ." (Some "/work/demo") None) (trace (node all_defaults) "demo" ∅) /\
  outcome (node all_defaults) "demo" ∅ = Returned tt.
Proof.
  assert (Hinit : In (ExecSync "git init ." (Some "/work/demo") None)
                     (trace (node all_defaults) "demo" ∅))
    by (apply exec_returns_in; vm_compute; found).
  split; [exact Hinit|].
  exact (proj1 (repository_initialised (node all_defaults) "demo" ∅ Hinit)).
Defined.
